(** * Notes API: a shallow embedding of [notes_backend/src/api/main.py]

    The service is a FastAPI application over one PostgreSQL table, reached
    through a SQLAlchemy session.  The embedding keeps the three layers of
    the source apart:

    - the table [notes] and the session calls the handlers make on it
      ([db_get], [db_add], [db_flush], [db_execute], [db_commit],
      [db_refresh], [db_delete], [db_rollback]), as a state and exception
      monad over a [Session];
    - the five handlers, written call by call as in the source;
    - the request boundary: the pydantic models [NoteCreate] and
      [NoteUpdate], the [UUID] path parameter and the status the framework
      answers with when one of them does not validate.

    Requests are served one at a time: each one gets a fresh session on the
    committed table and leaves a committed table behind.  What the database
    decides on its own is an input of the request, the record [Env]: the
    value of [NOW()] in the request's transaction, the value the column
    default [gen_random_uuid()] draws, and the storage failures the calls
    run into. *)

From Stdlib Require Import ZArith NArith Ascii String.
From stdpp Require Import gmap strings list sorting.

Local Open Scope Z_scope.

(** ** Column types *)

(** [UUID] columns and path parameters: the 128-bit integer of the uuid. *)
Abbreviation UUID := N (only parsing).

(** [DateTime(timezone=True)]: microseconds since the epoch. *)
Abbreviation datetime := Z (only parsing).

(** *** [str(uuid)]

    Python prints a UUID as the 32 lower-case hexadecimal digits of its
    integer, ['%032x' % int], cut 8-4-4-4-12 and joined with hyphens. *)

Definition hex_char (d : N) : ascii :=
  match d with
  | 0 => "0" | 1 => "1" | 2 => "2" | 3 => "3"
  | 4 => "4" | 5 => "5" | 6 => "6" | 7 => "7"
  | 8 => "8" | 9 => "9" | 10 => "a" | 11 => "b"
  | 12 => "c" | 13 => "d" | 14 => "e" | _ => "f"
  end%N%char.

Fixpoint hex (digits : nat) (v : N) : string :=
  match digits with
  | O => ""
  | S k => hex k (v / 16)%N +:+ String (hex_char (v mod 16)%N) ""
  end.

Definition uuid_str (u : UUID) : string :=
  let h := hex 32 u in
  String.substring 0 8 h +:+ "-" +:+ String.substring 8 4 h +:+ "-" +:+
  String.substring 12 4 h +:+ "-" +:+ String.substring 16 4 h +:+ "-" +:+
  String.substring 20 12 h.

(** ** The table and the models *)

(** A row of [notes] without its primary key; the table maps [id] to it. *)
Module Row.
Record t := mk
  { title : string; content : string;
    created_at : datetime; updated_at : datetime }.
End Row.

(** A persistent [NoteORM] instance: a row loaded with its primary key. *)
Module NoteORM.
Record t := mk
  { id : UUID; title : string; content : string;
    created_at : datetime; updated_at : datetime }.

Definition of_row (pk : UUID) (r : Row.t) : t :=
  mk pk (Row.title r) (Row.content r) (Row.created_at r) (Row.updated_at r).
End NoteORM.

Module NoteCreate.
Record t := mk { title : string; content : string }.
End NoteCreate.

Module NoteUpdate.
Record t := mk { title : option string; content : option string }.
End NoteUpdate.

Module Note.
Record t := mk
  { id : UUID; title : string; content : string;
    created_at : datetime; updated_at : datetime }.
End Note.

(** ** The session *)

(** The session methods the handlers call. *)
Inductive DbCall :=
  CQuery | CGet | CAdd | CDelete | CFlush | CExecute | CCommit | CRefresh.

(** What a request did with its session, in order. *)
Inductive Event :=
| EvOk (c : DbCall)
| EvFailed (c : DbCall) (diag : string)     (* it raised SQLAlchemyError *)
| EvValueError (c : DbCall) (msg : string)  (* it raised ValueError *)
| EvRollback.

(** The unit of work: the change the session holds back until the next
    flush.  A handler touches one instance, so one slot is enough. *)
Inductive Pending :=
| PNew (title content : string)
| PDirty (pk : UUID) (title content : option string)
| PDeleted (pk : UUID).

(** What the database contributes to one request: the reading of [NOW()]
    in its transaction, the value [gen_random_uuid()] draws, and for the
    [i]-th thing the session does, should it be the call [c], the
    diagnostic it fails with, if it is to fail. *)
Record Env := mkEnv
  { now : datetime;
    gen_random_uuid : UUID;
    fault : nat → DbCall → option string }.

Record Session := mkSession
  { conn : Env;
    committed : gmap N Row.t;
    working : gmap N Row.t;
    uow : option Pending;
    events : list Event }.

Inductive Exn :=
| SQLAlchemyError (diag : string)
| ValueError (msg : string)
| HTTPException (status_code : nat) (detail : string).

Inductive Result (A : Type) :=
| Ok (a : A)
| Raise (e : Exn).
Arguments Ok {A} a.
Arguments Raise {A} e.

Definition DB (A : Type) : Type := Session → Result A * Session.

Definition ret {A} (a : A) : DB A := λ s, (Ok a, s).

Definition bind {A B} (m : DB A) (k : A → DB B) : DB B := λ s,
  match m s with
  | (Ok a, s') => k a s'
  | (Raise e, s') => (Raise e, s')
  end.

Definition raise {A} (e : Exn) : DB A := λ s, (Raise e, s).

(** [try: body except SQLAlchemyError as exc: handler exc]; an
    [HTTPException] or a [ValueError] raised in the body passes through. *)
Definition try_except {A} (body : DB A) (handler : string → DB A) : DB A := λ s,
  match body s with
  | (Raise (SQLAlchemyError exc), s') => handler exc s'
  | r => r
  end.

Declare Scope db_scope.
Delimit Scope db_scope with db.
Notation "x ← y ; z" := (bind y (λ x, z))
  (at level 20, y at level 100, z at level 200, only parsing) : db_scope.
Notation "y ;; z" := (bind y (λ _, z))
  (at level 100, z at level 200, only parsing, right associativity) : db_scope.

Definition log (e : Event) (s : Session) : Session :=
  mkSession (conn s) (committed s) (working s) (uow s) (events s ++ [e]).

(** How a statement comes to nothing: the database or SQLAlchemy refuses
    it, which raises an [SQLAlchemyError] with a diagnostic, or the driver
    cannot bind one of its parameters, which raises a plain [ValueError]
    before anything is sent. *)
Inductive Refusal :=
| Refused (diag : string)
| Unbindable (msg : string).

(** A text parameter the driver cannot bind: one that holds the character
    U+0000. *)
Fixpoint has_nul (s : string) : bool :=
  match s with
  | EmptyString => false
  | String c s' => Ascii.eqb c Ascii.zero || has_nul s'
  end.

Definition NUL_REFUSED : string :=
  "A string literal cannot contain NUL (0x00) characters.".

(** One session call: it fails with the diagnostic the environment injects
    for it, or with what the statement itself runs into, and then leaves
    the session as it found it; the event is recorded either way. *)
Definition call {A} (c : DbCall) (op : Session → Refusal + A * Session) : DB A :=
  λ s,
  match fault (conn s) (length (events s)) c with
  | Some diag => (Raise (SQLAlchemyError diag), log (EvFailed c diag) s)
  | None =>
      match op s with
      | inl (Refused diag) =>
          (Raise (SQLAlchemyError diag), log (EvFailed c diag) s)
      | inl (Unbindable msg) =>
          (Raise (ValueError msg), log (EvValueError c msg) s)
      | inr (a, s') => (Ok a, log (EvOk c) s')
      end
  end.

Definition with_work (w : gmap N Row.t) (u : option Pending) (s : Session)
  : Session :=
  mkSession (conn s) (committed s) w u (events s).

(** *** Flush

    The pending change becomes a statement on the transaction's view of the
    table.  An INSERT leaves [id], [created_at] and [updated_at] to their
    column defaults, [gen_random_uuid()] and [NOW()], and is refused when
    the primary key is taken; the flush hands the new key back to the
    instance.  An UPDATE or DELETE of an instance expects to hit its row.
    The title and content an INSERT or UPDATE carries are bound as
    parameters, which the driver refuses when one holds U+0000. *)
Definition do_flush (s : Session) : Refusal + option UUID * Session :=
  match uow s with
  | None => inr (None, s)
  | Some (PNew t c) =>
      if has_nul t || has_nul c then inl (Unbindable NUL_REFUSED)
      else
        let pk := gen_random_uuid (conn s) in
        match working s !! pk with
        | Some _ =>
            inl (Refused
                   "duplicate key value violates unique constraint notes_pkey")
        | None =>
            let r := Row.mk t c (now (conn s)) (now (conn s)) in
            inr (Some pk, with_work (<[pk := r]> (working s)) None s)
        end
  | Some (PDirty pk t c) =>
      if from_option has_nul false t || from_option has_nul false c
      then inl (Unbindable NUL_REFUSED)
      else
        match working s !! pk with
        | None =>
            inl (Refused
                   "UPDATE statement on table 'notes' expected to update 1 row(s); 0 were matched.")
        | Some r =>
            let r' := Row.mk (default (Row.title r) t)
                        (default (Row.content r) c)
                        (Row.created_at r) (Row.updated_at r) in
            inr (None, with_work (<[pk := r']> (working s)) None s)
        end
  | Some (PDeleted pk) =>
      match working s !! pk with
      | None =>
          inl (Refused
                 "DELETE statement on table 'notes' expected to delete 1 row(s); 0 were matched.")
      | Some _ => inr (None, with_work (delete pk (working s)) None s)
      end
  end.

(** *** The two textual statements of the handlers

    Both bind [:id] to [str(note.id)].  The parameter is kept as the key the
    text stands for, or [None] for an instance that has no key yet, whose
    text PostgreSQL would refuse to read as a uuid.  An UPDATE whose WHERE
    clause matches no row changes nothing and is no error.  [:title] and
    [:content] are text parameters: the driver refuses to bind one that
    holds U+0000, before the statement reaches the database. *)
Inductive Statement :=
| UpdateTimestamps (id : option UUID)
    (* UPDATE notes SET created_at = NOW(), updated_at = NOW() WHERE id = :id *)
| UpdateNote (id : option UUID) (title content : string).
    (* UPDATE notes SET updated_at = NOW(), title = :title, content = :content
       WHERE id = :id *)

Definition do_execute (stmt : Statement) (s : Session)
  : Refusal + unit * Session :=
  let t := now (conn s) in
  let no_uuid := Refused "invalid input syntax for type uuid: None" in
  match stmt with
  | UpdateTimestamps (Some pk) =>
      let set r := Row.mk (Row.title r) (Row.content r) t t in
      inr ((), with_work (alter set pk (working s)) (uow s) s)
  | UpdateTimestamps None => inl no_uuid
  | UpdateNote id title content =>
      if has_nul title || has_nul content then inl (Unbindable NUL_REFUSED)
      else
        match id with
        | Some pk =>
            let set r := Row.mk title content (Row.created_at r) t in
            inr ((), with_work (alter set pk (working s)) (uow s) s)
        | None => inl no_uuid
        end
  end.

(** [ORDER BY updated_at DESC]: the row with the later [updated_at] first. *)
Definition updated_desc (a b : UUID * Row.t) : Prop :=
  Row.updated_at b.2 ≤ Row.updated_at a.2.

Global Instance updated_desc_dec a b : Decision (updated_desc a b) :=
  decide (Row.updated_at b.2 ≤ Row.updated_at a.2).

Definition db_query_order_by_updated_at_desc : DB (list NoteORM.t) :=
  call CQuery (λ s,
    let rows := merge_sort updated_desc (map_to_list (working s)) in
    inr ((λ kr, NoteORM.of_row kr.1 kr.2) <$> rows, s)).

Definition db_get (pk : UUID) : DB (option NoteORM.t) :=
  call CGet (λ s, inr (NoteORM.of_row pk <$> working s !! pk, s)).

Definition db_add (title content : string) : DB unit :=
  call CAdd (λ s, inr ((), with_work (working s) (Some (PNew title content)) s)).

Definition db_delete (note : NoteORM.t) : DB unit :=
  call CDelete (λ s,
    inr ((), with_work (working s) (Some (PDeleted (NoteORM.id note))) s)).

Definition db_flush : DB (option UUID) := call CFlush do_flush.

Definition db_execute (stmt : Statement) : DB unit :=
  call CExecute (do_execute stmt).

(** [db.commit()] flushes what is pending, then makes the transaction's
    view the committed table. *)
Definition do_commit (s : Session) : Refusal + unit * Session :=
  inr ((), mkSession (conn s) (working s) (working s) (uow s) (events s)).

Definition db_commit : DB unit :=
  (call CFlush do_flush ;; call CCommit do_commit)%db.

(** [db.refresh(note)] reads the instance's row again. *)
Definition do_refresh (pk : option UUID) (s : Session)
  : Refusal + NoteORM.t * Session :=
  match pk with
  | None => inl (Refused "Instance is not persistent within this Session")
  | Some pk =>
      match working s !! pk with
      | None => inl (Refused "Could not refresh instance")
      | Some r => inr (NoteORM.of_row pk r, s)
      end
  end.

Definition db_refresh (pk : option UUID) : DB NoteORM.t :=
  call CRefresh (do_refresh pk).

(** [db.rollback()] drops the transaction's view and the pending change. *)
Definition db_rollback : DB unit := λ s,
  (Ok (), log EvRollback (with_work (committed s) None s)).

(** [note.title = ...] and [note.content = ...] on a loaded instance: the
    attribute changes and the session marks it for the next flush. *)
Definition dirty_title (pk : UUID) (t : string) (u : option Pending) : Pending :=
  match u with
  | Some (PDirty _ _ c) => PDirty pk (Some t) c
  | _ => PDirty pk (Some t) None
  end.

Definition dirty_content (pk : UUID) (c : string) (u : option Pending) : Pending :=
  match u with
  | Some (PDirty _ t _) => PDirty pk t (Some c)
  | _ => PDirty pk None (Some c)
  end.

Definition set_title (note : NoteORM.t) (t : string) : DB NoteORM.t := λ s,
  let pk := NoteORM.id note in
  (Ok (NoteORM.mk pk t (NoteORM.content note)
         (NoteORM.created_at note) (NoteORM.updated_at note)),
   with_work (working s) (Some (dirty_title pk t (uow s))) s).

Definition set_content (note : NoteORM.t) (c : string) : DB NoteORM.t := λ s,
  let pk := NoteORM.id note in
  (Ok (NoteORM.mk pk (NoteORM.title note) c
         (NoteORM.created_at note) (NoteORM.updated_at note)),
   with_work (working s) (Some (dirty_content pk c (uow s))) s).

(** ** Responses *)

(** An entry of the body of a 422: where the offending value is and what
    is wrong with it, the [loc] and [type] of the entry.  The message, the
    echoed input and the rest of an entry are the library's wording for
    that type. *)
Inductive ErrorType :=
| missing            (* a required field is absent *)
| string_type        (* the value is not a string, as [null] is not *)
| string_too_short   (* [min_length] is not met *)
| uuid_parsing.      (* the path segment is not a uuid *)

Record ValidationError := mkError
  { loc : list string;
    error_type : ErrorType }.

Inductive Body :=
| JNote (n : Note.t)
| JNotes (l : list Note.t)
| JDeleted (id : string)              (* {"status": "deleted", "id": id} *)
| JDetail (detail : string)           (* {"detail": detail} *)
| JValidation (errors : list ValidationError)
    (* {"detail": [...]}, one entry per offending field *)
| JInternalServerError.               (* the bare text of an unhandled error *)

Record Response := mkResponse { status : nat; body : Body }.

(** What serving one request leaves behind: the response, the committed
    table, and what the session was asked to do. *)
Record Outcome := mkOutcome
  { response : Response;
    store : gmap N Row.t;
    trace : list Event }.

Definition to_note (r : NoteORM.t) : Note.t :=
  Note.mk (NoteORM.id r) (NoteORM.title r) (NoteORM.content r)
    (NoteORM.created_at r) (NoteORM.updated_at r).

(** ** The handlers *)

Local Open Scope db_scope.

Definition database_error {A} (exc : string) : DB A :=
  raise (HTTPException 500 ("Database error: " +:+ exc)).

Definition list_notes : DB Body :=
  try_except
    (rows ← db_query_order_by_updated_at_desc;
     ret (JNotes (to_note <$> rows)))
    (λ exc, database_error exc).

Definition create_note (payload : NoteCreate.t) : DB Body :=
  try_except
    (db_add (NoteCreate.title payload) (NoteCreate.content payload);;
     pk ← db_flush;
     db_execute (UpdateTimestamps pk);;
     db_commit;;
     note ← db_refresh pk;
     ret (JNote (to_note note)))
    (λ exc, db_rollback;; database_error exc).

Definition get_note (note_id : UUID) : DB Body :=
  try_except
    (note ← db_get note_id;
     match note with
     | None => raise (HTTPException 404 "Note not found")
     | Some note => ret (JNote (to_note note))
     end)
    (λ exc, database_error exc).

Definition nothing_to_update (payload : NoteUpdate.t) : bool :=
  match NoteUpdate.title payload, NoteUpdate.content payload with
  | None, None => true
  | _, _ => false
  end.

Definition update_note (payload : NoteUpdate.t) (note_id : UUID) : DB Body :=
  if nothing_to_update payload then
    raise (HTTPException 400 "Nothing to update")
  else
    try_except
      (note ← db_get note_id;
       match note with
       | None => raise (HTTPException 404 "Note not found")
       | Some note =>
           note ← match NoteUpdate.title payload with
                  | Some t => set_title note t
                  | None => ret note
                  end;
           note ← match NoteUpdate.content payload with
                  | Some c => set_content note c
                  | None => ret note
                  end;
           db_execute (UpdateNote (Some (NoteORM.id note))
                         (NoteORM.title note) (NoteORM.content note));;
           db_commit;;
           note ← db_refresh (Some (NoteORM.id note));
           ret (JNote (to_note note))
       end)
      (λ exc, db_rollback;; database_error exc).

Definition delete_note (note_id : UUID) : DB Body :=
  try_except
    (note ← db_get note_id;
     match note with
     | None => raise (HTTPException 404 "Note not found")
     | Some note =>
         db_delete note;;
         db_commit;;
         ret (JDeleted (uuid_str note_id))
     end)
    (λ exc, db_rollback;; database_error exc).

Local Close Scope db_scope.

(** [get_db] and the framework around a handler: a fresh session on the
    committed table, the handler, and [db.close()], which drops whatever
    was not committed.  A returned body is answered with 200, an
    [HTTPException] with its status and detail, and any other exception
    that leaves the handler with a bare 500. *)
Definition get_db (env : Env) (tbl : gmap N Row.t) : Session :=
  mkSession env tbl tbl None [].

Definition run_handler (h : DB Body) (env : Env) (tbl : gmap N Row.t) : Outcome :=
  let '(r, s) := h (get_db env tbl) in
  let resp :=
    match r with
    | Ok b => mkResponse 200 b
    | Raise (HTTPException code detail) => mkResponse code (JDetail detail)
    | Raise (SQLAlchemyError _) | Raise (ValueError _) =>
        mkResponse 500 JInternalServerError
    end in
  mkOutcome resp (committed s) (events s).

(** ** The request boundary *)

(** A JSON body as the two models read it: each of [title] and [content]
    is absent, [null] or a string. *)
Inductive Field := Missing | Null | Text (s : string).

Record JsonBody := mkBody { body_title : Field; body_content : Field }.

(** [min_length=1]. *)
Definition min_length_1 (s : string) : bool := (1 <=? String.length s)%nat.

(** [str = Field(..., min_length=1)]: required, not [null]. *)
Definition required_str (name : string) (f : Field)
  : list ValidationError + string :=
  match f with
  | Text s =>
      if min_length_1 s then inr s
      else inl [mkError ["body"; name] string_too_short]
  | Null => inl [mkError ["body"; name] string_type]
  | Missing => inl [mkError ["body"; name] missing]
  end.

(** [Optional[str] = Field(None, min_length=1)]: absent and [null] both
    give [None]. *)
Definition optional_str (name : string) (f : Field)
  : list ValidationError + option string :=
  match f with
  | Text s =>
      if min_length_1 s then inr (Some s)
      else inl [mkError ["body"; name] string_too_short]
  | Missing | Null => inr None
  end.

Definition errors_of {A} (r : list ValidationError + A) : list ValidationError :=
  match r with inl e => e | inr _ => [] end.

Definition NoteCreate_validate (b : JsonBody)
  : list ValidationError + NoteCreate.t :=
  match required_str "title" (body_title b),
        required_str "content" (body_content b) with
  | inr t, inr c => inr (NoteCreate.mk t c)
  | rt, rc => inl (errors_of rt ++ errors_of rc)
  end.

Definition NoteUpdate_validate (b : JsonBody)
  : list ValidationError + NoteUpdate.t :=
  match optional_str "title" (body_title b),
        optional_str "content" (body_content b) with
  | inr t, inr c => inr (NoteUpdate.mk t c)
  | rt, rc => inl (errors_of rt ++ errors_of rc)
  end.

(** The status of FastAPI's handler for a request that does not validate;
    the application installs no handler of its own for it. *)
Definition HTTP_422_UNPROCESSABLE_ENTITY : nat := 422.

Definition request_validation_error (errs : list ValidationError)
    (tbl : gmap N Row.t) : Outcome :=
  mkOutcome (mkResponse HTTP_422_UNPROCESSABLE_ENTITY (JValidation errs)) tbl [].

Inductive Request :=
| GET_notes
| POST_notes (b : JsonBody)
| GET_note (note_id : string)
| PUT_note (note_id : string) (b : JsonBody)
| DELETE_note (note_id : string).

Section Routes.

(** How the text of a path segment is read as a [UUID]. *)
Variable parse_uuid : string → option UUID.

Definition path_note_id (raw : string) : list ValidationError + UUID :=
  match parse_uuid raw with
  | Some u => inr u
  | None => inl [mkError ["path"; "note_id"] uuid_parsing]
  end.

(** Path and body are validated together, before the handler and its
    session exist. *)
Definition dispatch (req : Request) (env : Env) (tbl : gmap N Row.t) : Outcome :=
  match req with
  | GET_notes => run_handler list_notes env tbl
  | POST_notes b =>
      match NoteCreate_validate b with
      | inr payload => run_handler (create_note payload) env tbl
      | inl errs => request_validation_error errs tbl
      end
  | GET_note raw =>
      match path_note_id raw with
      | inr note_id => run_handler (get_note note_id) env tbl
      | inl errs => request_validation_error errs tbl
      end
  | PUT_note raw b =>
      match path_note_id raw, NoteUpdate_validate b with
      | inr note_id, inr payload =>
          run_handler (update_note payload note_id) env tbl
      | rp, rb => request_validation_error (errors_of rp ++ errors_of rb) tbl
      end
  | DELETE_note raw =>
      match path_note_id raw with
      | inr note_id => run_handler (delete_note note_id) env tbl
      | inl errs => request_validation_error errs tbl
      end
  end.

(** Requests served one after the other, each with what the database
    contributes to it. *)
Fixpoint serve (reqs : list (Request * Env)) (tbl : gmap N Row.t)
  : gmap N Row.t :=
  match reqs with
  | [] => tbl
  | (req, env) :: rest => serve rest (store (dispatch req env tbl))
  end.

End Routes.

(** ** Start-up

    [init_db] runs its two statements in one [engine.begin()] block: the
    block commits when it is left normally and rolls back when a statement
    raises.  Of the database, what matters is whether the extension
    [pgcrypto] and the table [notes] exist, and the rows of the table.
    [IF NOT EXISTS] makes each statement do nothing when its object is
    there. *)
Record Database := mkDatabase
  { pgcrypto : bool;
    notes : option (gmap N Row.t) }.

(** Where [init_db] reaches the database. *)
Inductive InitStep := IBegin | ICreateExtension | ICreateTable | ICommit.

Definition create_extension_if_not_exists (d : Database) : Database :=
  mkDatabase true (notes d).

Definition create_table_if_not_exists (d : Database) : Database :=
  mkDatabase (pgcrypto d)
    (Some match notes d with Some rows => rows | None => ∅ end).

(** The result is the diagnostic of the [SQLAlchemyError] raised, if any,
    and the database the block leaves. *)
Definition init_db (fault : InitStep → option string) (d : Database)
  : option string * Database :=
  match fault IBegin with
  | Some diag => (Some diag, d)
  | None =>
      match fault ICreateExtension with
      | Some diag => (Some diag, d)
      | None =>
          let d1 := create_extension_if_not_exists d in
          match fault ICreateTable with
          | Some diag => (Some diag, d)
          | None =>
              let d2 := create_table_if_not_exists d1 in
              match fault ICommit with
              | Some diag => (Some diag, d)
              | None => (None, d2)
              end
          end
      end
  end.

(** [on_startup]: the application starts, or [RuntimeError] stops it. *)
Inductive Startup :=
| Started (d : Database)
| RuntimeError (msg : string) (d : Database).

Definition on_startup (fault : InitStep → option string) (d : Database)
  : Startup :=
  match init_db fault d with
  | (None, d') => Started d'
  | (Some exc, d') =>
      RuntimeError ("Database initialization failed: " +:+ exc) d'
  end.

(** ** Vocabulary of the properties *)

(** The note that shows a row: the key as its id, and each column of the
    row in the field of the same name. *)
Definition note_of_row (kr : UUID * Row.t) : Note.t :=
  Note.mk kr.1 (Row.title kr.2) (Row.content kr.2)
    (Row.created_at kr.2) (Row.updated_at kr.2).

(** The notes of a table. *)
Definition stored_notes (tbl : gmap N Row.t) : list Note.t :=
  note_of_row <$> map_to_list tbl.

(** Most recently touched first. *)
Definition newest_first (a b : Note.t) : Prop :=
  Note.updated_at b ≤ Note.updated_at a.

(** The requests that write: the three handlers with a [db.rollback()]. *)
Inductive Mutation :=
| Create (payload : NoteCreate.t)
| Update (payload : NoteUpdate.t) (note_id : UUID)
| Delete (note_id : UUID).

Definition mutation_handler (m : Mutation) : DB Body :=
  match m with
  | Create payload => create_note payload
  | Update payload note_id => update_note payload note_id
  | Delete note_id => delete_note note_id
  end.

(** A required field that is absent, [null] or the empty string. *)
Definition empty_or_missing (f : Field) : Prop :=
  f = Missing ∨ f = Null ∨ f = Text "".

(** Malformed or missing required input: a create whose title or content is
    empty or missing, an update that sets a field to the empty string, a
    path id that is not a uuid. *)
Inductive malformed (parse_uuid : string → option UUID) : Request → Prop :=
| malformed_create_title b :
    empty_or_missing (body_title b) → malformed parse_uuid (POST_notes b)
| malformed_create_content b :
    empty_or_missing (body_content b) → malformed parse_uuid (POST_notes b)
| malformed_update_title raw b :
    body_title b = Text "" → malformed parse_uuid (PUT_note raw b)
| malformed_update_content raw b :
    body_content b = Text "" → malformed parse_uuid (PUT_note raw b)
| malformed_get_id raw :
    parse_uuid raw = None → malformed parse_uuid (GET_note raw)
| malformed_update_id raw b :
    parse_uuid raw = None → malformed parse_uuid (PUT_note raw b)
| malformed_delete_id raw :
    parse_uuid raw = None → malformed parse_uuid (DELETE_note raw).

(** The readings of [NOW()] of successive requests never go back, starting
    from [t]. *)
Fixpoint clock_advances (t : datetime) (reqs : list (Request * Env)) : Prop :=
  match reqs with
  | [] => True
  | (_, env) :: rest => t ≤ now env ∧ clock_advances (now env) rest
  end.

(** Every stored note was created no later than it was last updated, and
    that no later than [t]. *)
Definition timestamps_ordered (t : datetime) (tbl : gmap N Row.t) : Prop :=
  ∀ k r, tbl !! k = Some r → Row.created_at r ≤ Row.updated_at r ≤ t.

Definition text_nonempty (tbl : gmap N Row.t) : Prop :=
  ∀ k r, tbl !! k = Some r → Row.title r ≠ "" ∧ Row.content r ≠ "".

(** What one request can do to the committed table. *)
Inductive committed_change (env : Env) (tbl : gmap N Row.t)
  : gmap N Row.t → Prop :=
| change_nothing : committed_change env tbl tbl
| change_insert title content :
    title ≠ "" → content ≠ "" →
    tbl !! gen_random_uuid env = None →
    committed_change env tbl
      (<[gen_random_uuid env := Row.mk title content (now env) (now env)]> tbl)
| change_update k r title content :
    tbl !! k = Some r →
    title = Row.title r ∨ title ≠ "" →
    content = Row.content r ∨ content ≠ "" →
    committed_change env tbl
      (<[k := Row.mk title content (Row.created_at r) (now env)]> tbl)
| change_delete k : committed_change env tbl (delete k tbl).

(** The requests that read: the two handlers without a [db.rollback()]. *)
Inductive Query :=
| ListAll
| GetOne (note_id : UUID).

Definition query_handler (q : Query) : DB Body :=
  match q with
  | ListAll => list_notes
  | GetOne note_id => get_note note_id
  end.

(** The row a note shows. *)
Definition row_of_note (n : Note.t) : Row.t :=
  Row.mk (Note.title n) (Note.content n) (Note.created_at n)
    (Note.updated_at n).

(** The keys the database draws for a sequence of requests. *)
Definition drawn (reqs : list (Request * Env)) : gset N :=
  list_to_set ((λ re : Request * Env, gen_random_uuid re.2) <$> reqs).

(** ** Sample data *)

Global Instance DbCall_eq_dec : EqDecision DbCall.
Proof. solve_decision. Defined.

Definition no_fault : nat → DbCall → option string := λ _ _, None.

Definition fault_at (c : DbCall) (diag : string)
  : nat → DbCall → option string :=
  λ _ c', if decide (c' = c) then Some diag else None.

(** A reader of the hyphenated hexadecimal form, for the examples. *)
Definition hex_value (c : ascii) : option N :=
  let n := N_of_ascii c in
  if decide (48 ≤ n ≤ 57)%N then Some (n - 48)%N
  else if decide (97 ≤ n ≤ 102)%N then Some (n - 87)%N
  else if decide (65 ≤ n ≤ 70)%N then Some (n - 55)%N
  else None.

Fixpoint hex_int (acc : N) (s : string) : option N :=
  match s with
  | EmptyString => Some acc
  | String c s' =>
      match hex_value c with
      | Some d => hex_int (16 * acc + d)%N s'
      | None => None
      end
  end.

Fixpoint drop_hyphens (s : string) : string :=
  match s with
  | EmptyString => EmptyString
  | String c s' =>
      if Ascii.eqb c "-" then drop_hyphens s' else String c (drop_hyphens s')
  end.

Definition uuid_of_hex (s : string) : option UUID :=
  let h := drop_hyphens s in
  if decide (String.length h = 32%nat) then hex_int 0 h else None.

Definition sample_row : Row.t := Row.mk "A" "B" 100 100.

Definition sample_table : gmap N Row.t := {[ 7%N := sample_row ]}.

Definition sample_env : Env := mkEnv 200 9%N no_fault.

Definition later_env : Env := mkEnv 300 11%N no_fault.

Definition refresh_fails : Env :=
  mkEnv 200 9%N (fault_at CRefresh "server closed the connection unexpectedly").

Definition execute_fails : Env :=
  mkEnv 200 9%N (fault_at CExecute "server closed the connection unexpectedly").

Definition sample_requests : list (Request * Env) :=
  [ (POST_notes (mkBody (Text "T") (Text "C")), sample_env);
    (PUT_note "00000000-0000-0000-0000-000000000007"
       (mkBody (Text "A2") Missing), later_env);
    (DELETE_note "00000000-0000-0000-0000-000000000009", later_env) ].

(** A reading of the clock before the sample row was written. *)
Definition earlier_env : Env := mkEnv 50 9%N no_fault.

(** The text of the one character U+0000. *)
Definition nul_text : string := String Ascii.zero EmptyString.

Definition sample_database : Database := mkDatabase false (Some sample_table).

Definition no_init_fault : InitStep → option string := λ _, None.

(** * Properties *)

Local Arguments String.append : simpl never.

(** ** Running a handler by hand *)

Ltac db_unfold :=
  unfold run_handler, get_db, mutation_handler, create_note, update_note,
    delete_note, get_note, list_notes, try_except, database_error, db_commit,
    db_flush, db_execute, db_refresh, db_get, db_add, db_delete, db_rollback,
    db_query_order_by_updated_at_desc, bind, ret, raise, call, do_flush,
    do_execute, do_commit, do_refresh, set_title, set_content, log, with_work.

Ltac db_simpl :=
  repeat (simpl;
    rewrite ?lookup_insert_eq, ?lookup_alter_eq, ?lookup_delete_eq,
      ?alter_insert_eq, ?insert_alter_eq, ?insert_insert_eq).

(** Use what is known about the faults and the rows. *)
Ltac db_auto :=
  repeat (db_simpl;
    match goal with
    | H : ∀ i c, fault ?e i c = None |- context [fault ?e ?i ?c] =>
        rewrite (H i c)
    | H : ∀ i, fault ?e i ?c = None |- context [fault ?e ?i ?c] =>
        rewrite (H i)
    | H : fault ?e ?i ?c = _ |- context [fault ?e ?i ?c] => rewrite H
    | H : ?m !! ?k = _ |- context [?m !! ?k] => rewrite H
    | H : has_nul ?x = _ |- context [has_nul ?x] => rewrite H
    end); db_simpl.

(** Branch on every fault, every lookup and every text the run meets. *)
Ltac db_cases :=
  repeat (db_auto;
    match goal with
    | |- context [fault ?e ?i ?c] => destruct (fault e i c) eqn:?
    | |- context [?m !! ?k] => is_var m; destruct (m !! k) eqn:?
    | |- context [has_nul ?x] => destruct (has_nul x) eqn:?
    end); db_auto.

(** Find the failed call in a trace. *)
Ltac in_trace H :=
  repeat (apply elem_of_cons in H as [H|H]; [try discriminate H |]);
  try (apply elem_of_nil in H; destruct H).

(** The events before the failed call and the rollback. *)
Ltac trace_prefix :=
  first [ by exists [] | by eexists [_] | by eexists [_; _]
        | by eexists [_; _; _] | by eexists [_; _; _; _]
        | by eexists [_; _; _; _; _] | by eexists [_; _; _; _; _; _] ].

Ltac storage_error_cases :=
  cbv zeta; db_unfold; db_cases;
  let Hin := fresh "Hin" in
  intros Hin; in_trace Hin; injection Hin as <- <-;
  (split_and!; [reflexivity | trace_prefix | auto]).

(** ** [str(uuid)] *)







(** ** The handlers when the storage does not fail *)


Lemma run_get_note_found env tbl note_id r :
  (∀ i, fault env i CGet = None) →
  tbl !! note_id = Some r →
  run_handler (get_note note_id) env tbl =
    mkOutcome (mkResponse 200 (JNote (note_of_row (note_id, r)))) tbl
      [EvOk CGet].
Proof. intros Hf Hr. db_unfold. db_auto. reflexivity. Qed.

Lemma run_get_note_missing env tbl note_id :
  (∀ i, fault env i CGet = None) →
  tbl !! note_id = None →
  run_handler (get_note note_id) env tbl =
    mkOutcome (mkResponse 404 (JDetail "Note not found")) tbl [EvOk CGet].
Proof. intros Hf Hr. db_unfold. db_auto. reflexivity. Qed.


Lemma run_update_note_missing env tbl payload note_id :
  (∀ i, fault env i CGet = None) →
  tbl !! note_id = None →
  nothing_to_update payload = false →
  run_handler (update_note payload note_id) env tbl =
    mkOutcome (mkResponse 404 (JDetail "Note not found")) tbl [EvOk CGet].
Proof.
  intros Hf Hr Hn. unfold update_note. rewrite Hn. db_unfold. db_auto.
  reflexivity.
Qed.

Lemma run_update_note_nothing env tbl payload note_id :
  nothing_to_update payload = true →
  run_handler (update_note payload note_id) env tbl =
    mkOutcome (mkResponse 400 (JDetail "Nothing to update")) tbl [].
Proof. intros Hn. unfold update_note. rewrite Hn. reflexivity. Qed.

Lemma run_delete_note env tbl note_id r :
  (∀ i c, fault env i c = None) →
  tbl !! note_id = Some r →
  run_handler (delete_note note_id) env tbl =
    mkOutcome (mkResponse 200 (JDeleted (uuid_str note_id)))
      (delete note_id tbl)
      [EvOk CGet; EvOk CDelete; EvOk CFlush; EvOk CCommit].
Proof. intros Hf Hr. db_unfold. db_auto. reflexivity. Qed.

Lemma run_delete_note_missing env tbl note_id :
  (∀ i, fault env i CGet = None) →
  tbl !! note_id = None →
  run_handler (delete_note note_id) env tbl =
    mkOutcome (mkResponse 404 (JDetail "Note not found")) tbl [EvOk CGet].
Proof. intros Hf Hr. db_unfold. db_auto. reflexivity. Qed.

(** ** What a request can leave in the table, whatever fails *)

Lemma store_list_notes env tbl : store (run_handler list_notes env tbl) = tbl.
Proof. db_unfold. db_cases; reflexivity. Qed.

Lemma store_get_note env tbl note_id :
  store (run_handler (get_note note_id) env tbl) = tbl.
Proof. db_unfold. db_cases; reflexivity. Qed.

Lemma store_create_note env tbl payload :
  store (run_handler (create_note payload) env tbl) = tbl ∨
  tbl !! gen_random_uuid env = None ∧
  store (run_handler (create_note payload) env tbl) =
    <[gen_random_uuid env :=
        Row.mk (NoteCreate.title payload) (NoteCreate.content payload)
          (now env) (now env)]> tbl.
Proof. db_unfold. db_cases; auto. Qed.

Lemma store_update_note env tbl payload note_id :
  store (run_handler (update_note payload note_id) env tbl) = tbl ∨
  ∃ r, tbl !! note_id = Some r ∧
    store (run_handler (update_note payload note_id) env tbl) =
      <[note_id :=
          Row.mk (default (Row.title r) (NoteUpdate.title payload))
            (default (Row.content r) (NoteUpdate.content payload))
            (Row.created_at r) (now env)]> tbl.
Proof.
  destruct payload as [[t|] [c|]]; db_unfold; db_cases; eauto.
Qed.

Lemma store_delete_note env tbl note_id :
  store (run_handler (delete_note note_id) env tbl) = tbl ∨
  store (run_handler (delete_note note_id) env tbl) = delete note_id tbl.
Proof. db_unfold. db_cases; auto. Qed.

(** ** Listing *)

Lemma updated_desc_transitive : Transitive updated_desc.
Proof. intros a b c. unfold updated_desc. lia. Qed.

Lemma updated_desc_total : Total updated_desc.
Proof. intros a b. unfold updated_desc. lia. Qed.

Lemma rows_sorted (l : list (N * Row.t)) :
  StronglySorted newest_first (note_of_row <$> merge_sort updated_desc l).
Proof.
  apply (StronglySorted_fmap note_of_row updated_desc newest_first).
  - intros a b Hab. exact Hab.
  - apply (@StronglySorted_merge_sort _ updated_desc _
             updated_desc_transitive updated_desc_total).
Qed.

Lemma rows_all (l : list (N * Row.t)) :
  note_of_row <$> merge_sort updated_desc l ≡ₚ note_of_row <$> l.
Proof. apply fmap_Permutation, merge_sort_Permutation. Qed.

Lemma elem_of_stored_notes (tbl : gmap N Row.t) (n : Note.t) :
  n ∈ stored_notes tbl ↔
  tbl !! Note.id n =
    Some (Row.mk (Note.title n) (Note.content n)
            (Note.created_at n) (Note.updated_at n)).
Proof.
  unfold stored_notes. rewrite list_elem_of_fmap. split.
  - intros [[k r] [-> Hin]]. apply elem_of_map_to_list in Hin.
    destruct r; exact Hin.
  - intros Hn. eexists (Note.id n, _). split; [| by apply elem_of_map_to_list].
    by destruct n.
Qed.

(** C2. For every table, when the query does not fail, [list_notes] answers
    200 with all stored notes, each once, the most recently updated first,
    and leaves the table as it was: a note is listed exactly when the table
    has, under its id, a row with its title, content and timestamps. *)
Theorem list_notes_newest_first env tbl :
  (∀ i, fault env i CQuery = None) →
  ∃ l,
    run_handler list_notes env tbl =
      mkOutcome (mkResponse 200 (JNotes l)) tbl [EvOk CQuery] ∧
    l ≡ₚ stored_notes tbl ∧
    (∀ n, n ∈ l ↔
          tbl !! Note.id n =
            Some (Row.mk (Note.title n) (Note.content n)
                    (Note.created_at n) (Note.updated_at n))) ∧
    StronglySorted newest_first l.
Proof.
  intros Hf.
  exists (note_of_row <$> merge_sort updated_desc (map_to_list tbl)).
  split_and!.
  - db_unfold. db_auto. by rewrite <- list_fmap_compose.
  - apply rows_all.
  - intros n. rewrite rows_all. apply elem_of_stored_notes.
  - apply rows_sorted.
Qed.

Lemma list_notes_newest_first_witness :
  ∃ l,
    run_handler list_notes sample_env sample_table =
      mkOutcome (mkResponse 200 (JNotes l)) sample_table [EvOk CQuery] ∧
    l ≡ₚ stored_notes sample_table ∧
    (∀ n, n ∈ l ↔
          sample_table !! Note.id n =
            Some (Row.mk (Note.title n) (Note.content n)
                    (Note.created_at n) (Note.updated_at n))) ∧
    StronglySorted newest_first l.
Proof. apply (list_notes_newest_first sample_env sample_table). reflexivity. Defined.

(** ** Create, then get *)



(** C1, as stated, fails: a create whose title is the one character U+0000,
    not empty, is answered with a bare 500 although the storage does not
    fail and the key is fresh.  The driver raises [ValueError] when the
    flush binds the title, the handler catches [SQLAlchemyError] only, and
    nothing is stored. *)
Lemma create_nul_title_500 :
  let created :=
    dispatch uuid_of_hex (POST_notes (mkBody (Text nul_text) (Text "B")))
      sample_env sample_table in
  nul_text ≠ "" ∧
  sample_table !! gen_random_uuid sample_env = None ∧
  response created = mkResponse 500 JInternalServerError ∧
  trace created = [EvOk CAdd; EvValueError CFlush NUL_REFUSED] ∧
  store created = sample_table.
Proof.
  split_and!; [discriminate | by vm_compute | reflexivity | reflexivity |
               reflexivity].
Qed.

(** ** Update *)

Lemma provided_not_nothing (payload : NoteUpdate.t) :
  is_Some (NoteUpdate.title payload) ∨ is_Some (NoteUpdate.content payload) →
  nothing_to_update payload = false.
Proof. destruct payload as [[t|] [c|]]; intros [[? H]|[? H]]; done. Qed.



(** C3, as stated, fails: an update of a stored note whose new title is
    the one character U+0000 is answered with a bare 500 although the
    storage does not fail.  The driver raises [ValueError] when the UPDATE
    binds the title, the handler catches [SQLAlchemyError] only, and the
    row stays as it was. *)
Lemma update_nul_title_500 :
  let updated :=
    run_handler (update_note (NoteUpdate.mk (Some nul_text) None) 7%N)
      sample_env sample_table in
  sample_table !! 7%N = Some sample_row ∧
  response updated = mkResponse 500 JInternalServerError ∧
  trace updated = [EvOk CGet; EvValueError CExecute NUL_REFUSED] ∧
  store updated = sample_table.
Proof.
  split_and!; [by vm_compute | reflexivity | reflexivity | reflexivity].
Qed.

(** C4. An update that provides neither title nor content answers 400 with
    the detail [Nothing to update]; the table is the one before and the
    session was never called. *)
Theorem update_note_nothing_to_update env tbl payload note_id :
  NoteUpdate.title payload = None →
  NoteUpdate.content payload = None →
  run_handler (update_note payload note_id) env tbl =
    mkOutcome (mkResponse 400 (JDetail "Nothing to update")) tbl [].
Proof.
  intros Ht Hc. apply run_update_note_nothing.
  unfold nothing_to_update. by rewrite Ht, Hc.
Qed.

Lemma update_note_nothing_to_update_witness :
  run_handler (update_note (NoteUpdate.mk None None) 7%N)
    refresh_fails sample_table =
    mkOutcome (mkResponse 400 (JDetail "Nothing to update")) sample_table [].
Proof.
  apply (update_note_nothing_to_update refresh_fails sample_table
           (NoteUpdate.mk None None) 7%N); reflexivity.
Defined.

(** C10. A body that sets title and content to [null] validates to the same
    payload as a body that leaves both out, so the two requests are served
    alike: 400 with the detail [Nothing to update], the table untouched and
    the session never called, when the path id reads as a uuid. *)
Theorem update_null_is_absent (parse_uuid : string → option UUID) raw env tbl :
  NoteUpdate_validate (mkBody Null Null) =
    NoteUpdate_validate (mkBody Missing Missing) ∧
  dispatch parse_uuid (PUT_note raw (mkBody Null Null)) env tbl =
    dispatch parse_uuid (PUT_note raw (mkBody Missing Missing)) env tbl ∧
  match parse_uuid raw with
  | Some _ =>
      dispatch parse_uuid (PUT_note raw (mkBody Null Null)) env tbl =
        mkOutcome (mkResponse 400 (JDetail "Nothing to update")) tbl []
  | None =>
      dispatch parse_uuid (PUT_note raw (mkBody Null Null)) env tbl =
        request_validation_error [mkError ["path"; "note_id"] uuid_parsing] tbl
  end.
Proof.
  repeat split.
  unfold dispatch, path_note_id. destruct (parse_uuid raw); reflexivity.
Qed.

(** ** Validation *)

Lemma validate_create_spec (b : JsonBody) :
  match NoteCreate_validate b with
  | inr payload =>
      body_title b = Text (NoteCreate.title payload) ∧
      body_content b = Text (NoteCreate.content payload) ∧
      NoteCreate.title payload ≠ "" ∧ NoteCreate.content payload ≠ ""
  | inl errs =>
      errs ≠ [] ∧
      (empty_or_missing (body_title b) ∨ empty_or_missing (body_content b))
  end.
Proof.
  unfold NoteCreate_validate, required_str, empty_or_missing.
  destruct b as [[| |[|a t]] [| |[|a' c]]]; simpl; naive_solver.
Qed.

Lemma validate_update_spec (b : JsonBody) :
  match NoteUpdate_validate b with
  | inr payload =>
      NoteUpdate.title payload ≠ Some "" ∧ NoteUpdate.content payload ≠ Some ""
  | inl errs =>
      errs ≠ [] ∧ (body_title b = Text "" ∨ body_content b = Text "")
  end.
Proof.
  unfold NoteUpdate_validate, optional_str.
  destruct b as [[| |[|a t]] [| |[|a' c]]]; simpl; naive_solver.
Qed.

(** C5, as the code has it.  A malformed request (a create whose title or
    content is empty or missing, an update that sets a field to the empty
    string, a path id that is not a uuid) is answered with 422, the status
    of the framework's validation response; the table is the one before and
    the session was never called. *)
Theorem malformed_request_rejected
    (parse_uuid : string → option UUID) req env tbl :
  malformed parse_uuid req →
  let rejected := dispatch parse_uuid req env tbl in
  status (response rejected) = 422%nat ∧
  store rejected = tbl ∧
  trace rejected = [].
Proof.
  intros Hbad. cbv zeta. unfold dispatch, path_note_id.
  destruct Hbad as [b Hb|b Hb|raw b Hb|raw b Hb|raw Hb|raw b Hb|raw Hb].
  - pose proof (validate_create_spec b) as Hv.
    destruct (NoteCreate_validate b) as [errs|payload]; [done |].
    destruct Hv as (Ht & _ & Hne & _). unfold empty_or_missing in Hb.
    rewrite Ht in Hb. destruct Hb as [Hb|[Hb|Hb]]; congruence.
  - pose proof (validate_create_spec b) as Hv.
    destruct (NoteCreate_validate b) as [errs|payload]; [done |].
    destruct Hv as (_ & Hc & _ & Hne). unfold empty_or_missing in Hb.
    rewrite Hc in Hb. destruct Hb as [Hb|[Hb|Hb]]; congruence.
  - unfold NoteUpdate_validate. rewrite Hb. simpl.
    destruct (parse_uuid raw), (optional_str "content" (body_content b)); done.
  - unfold NoteUpdate_validate. rewrite Hb. simpl.
    destruct (parse_uuid raw), (optional_str "title" (body_title b)); done.
  - by rewrite Hb.
  - rewrite Hb. by destruct (NoteUpdate_validate b).
  - by rewrite Hb.
Qed.

Lemma malformed_request_rejected_witness :
  let rejected :=
    dispatch uuid_of_hex (GET_note "not-a-uuid") sample_env sample_table in
  status (response rejected) = 422%nat ∧
  store rejected = sample_table ∧
  trace rejected = [].
Proof.
  apply (malformed_request_rejected uuid_of_hex (GET_note "not-a-uuid")
           sample_env sample_table).
  apply malformed_get_id. reflexivity.
Defined.

(** C5, as stated, fails: a create whose title is empty is answered with
    422, not 400. *)
Lemma empty_title_not_400 :
  let req := POST_notes (mkBody (Text "") (Text "B")) in
  malformed uuid_of_hex req ∧
  status (response (dispatch uuid_of_hex req sample_env sample_table)) ≠ 400%nat.
Proof.
  split.
  - apply malformed_create_title. right. right. reflexivity.
  - vm_compute. discriminate.
Qed.

(** ** The committed table across requests *)

Lemma default_nonempty (old : string) (new : option string) :
  new ≠ Some "" → default old new = old ∨ default old new ≠ "".
Proof. destruct new as [s|]; simpl; [| by left]. right. congruence. Qed.

Lemma dispatch_change (parse_uuid : string → option UUID) req env tbl :
  committed_change env tbl (store (dispatch parse_uuid req env tbl)).
Proof.
  unfold dispatch, path_note_id. destruct req as [|b|raw|raw b|raw].
  - rewrite store_list_notes. constructor.
  - pose proof (validate_create_spec b) as Hv.
    destruct (NoteCreate_validate b) as [errs|payload]; [constructor |].
    destruct Hv as (_ & _ & Ht & Hc).
    destruct (store_create_note env tbl payload) as [->|[Hfresh ->]];
      by constructor.
  - destruct (parse_uuid raw) as [note_id|]; [| constructor].
    rewrite store_get_note. constructor.
  - pose proof (validate_update_spec b) as Hv.
    destruct (parse_uuid raw) as [note_id|],
      (NoteUpdate_validate b) as [errs|payload]; try constructor.
    destruct Hv as [Ht Hc].
    destruct (store_update_note env tbl payload note_id) as [->|(r & Hr & ->)];
      [constructor |].
    apply change_update; auto using default_nonempty.
  - destruct (parse_uuid raw) as [note_id|]; [| constructor].
    destruct (store_delete_note env tbl note_id) as [->| ->]; constructor.
Qed.

Lemma change_keeps_absent env tbl tbl' k :
  committed_change env tbl tbl' →
  tbl !! k = None → gen_random_uuid env ≠ k → tbl' !! k = None.
Proof.
  intros [|t c _ _ _|k' r t c Hr _ _|k'] Hk Hgen.
  - done.
  - by rewrite lookup_insert_ne.
  - rewrite lookup_insert_ne; [done | congruence].
  - rewrite lookup_delete. by case_decide.
Qed.

Lemma change_keeps_timestamps_ordered env tbl tbl' t :
  committed_change env tbl tbl' →
  timestamps_ordered t tbl → t ≤ now env →
  timestamps_ordered (now env) tbl'.
Proof.
  intros Hch Hinv Hclock k r.
  destruct Hch as [|title content _ _ _|k' r' title content Hr' _ _|k'].
  - intros Hr. specialize (Hinv k r Hr). lia.
  - rewrite lookup_insert. case_decide.
    + intros [= <-]. simpl. lia.
    + intros Hr. specialize (Hinv k r Hr). lia.
  - rewrite lookup_insert. case_decide.
    + intros [= <-]. simpl. specialize (Hinv k' r' Hr'). lia.
    + intros Hr. specialize (Hinv k r Hr). lia.
  - rewrite lookup_delete. case_decide; [done |].
    intros Hr. specialize (Hinv k r Hr). lia.
Qed.

Lemma change_keeps_text_nonempty env tbl tbl' :
  committed_change env tbl tbl' → text_nonempty tbl → text_nonempty tbl'.
Proof.
  intros Hch Hinv k r.
  destruct Hch as [|title content Ht Hc _|k' r' title content Hr' Ht Hc|k'].
  - apply Hinv.
  - rewrite lookup_insert. case_decide; [| apply Hinv].
    intros [= <-]. done.
  - rewrite lookup_insert. case_decide; [| apply Hinv].
    intros [= <-]. simpl. destruct (Hinv k' r' Hr') as [Ht' Hc'].
    split; [destruct Ht as [-> | Ht] | destruct Hc as [-> | Hc]]; done.
  - rewrite lookup_delete. case_decide; [done | apply Hinv].
Qed.

Lemma serve_keeps_absent (parse_uuid : string → option UUID) reqs k :
  ∀ tbl,
    Forall (λ re : Request * Env, gen_random_uuid re.2 ≠ k) reqs →
    tbl !! k = None →
    serve parse_uuid reqs tbl !! k = None.
Proof.
  induction reqs as [|[req env] reqs IH]; intros tbl Hgen Hk; [done |].
  inversion Hgen as [|? ? Hhd Htl]; subst. simpl in *.
  apply IH; [done |].
  eapply change_keeps_absent; [apply dispatch_change | done | done].
Qed.


(** C8. From a table whose notes have a title and a content that are not
    empty, whatever requests are served, every stored note has a title and
    a content that are not empty. *)
Theorem stored_text_nonempty
    (parse_uuid : string → option UUID) reqs tbl k r :
  text_nonempty tbl →
  serve parse_uuid reqs tbl !! k = Some r →
  Row.title r ≠ "" ∧ Row.content r ≠ "".
Proof.
  revert tbl. induction reqs as [|[req env] reqs IH]; intros tbl Hinv.
  - apply Hinv.
  - simpl. apply IH.
    eapply change_keeps_text_nonempty; [apply dispatch_change | done].
Qed.

Lemma sample_table_timestamps_ordered : timestamps_ordered 100 sample_table.
Proof.
  intros k r Hr. unfold sample_table in Hr. apply lookup_singleton_Some in Hr as [_ <-]. simpl. lia.
Qed.

Lemma sample_table_text_nonempty : text_nonempty sample_table.
Proof. intros k r Hr. unfold sample_table in Hr. apply lookup_singleton_Some in Hr as [_ <-]. done. Qed.


(** C7, as stated, fails: [update_note] writes the reading of [NOW()] to
    [updated_at] without comparing it with [created_at].  From a table
    whose one note has [created_at = updated_at = 100], an update served
    when the clock reads 50 answers 200 and leaves the note with
    [updated_at = 50], before its [created_at]. *)
Lemma update_clock_back_breaks_order :
  let req :=
    PUT_note "00000000-0000-0000-0000-000000000007"
      (mkBody (Text "C") Missing) in
  (∀ k r, sample_table !! k = Some r →
          Row.created_at r ≤ Row.updated_at r) ∧
  status (response (dispatch uuid_of_hex req earlier_env sample_table)) =
    200%nat ∧
  serve uuid_of_hex [(req, earlier_env)] sample_table !! 7%N =
    Some (Row.mk "C" "B" 100 50) ∧
  ¬ Row.created_at (Row.mk "C" "B" 100 50) ≤
      Row.updated_at (Row.mk "C" "B" 100 50).
Proof.
  cbv zeta. split_and!.
  - intros k r Hr. apply (sample_table_timestamps_ordered k r Hr).
  - vm_compute. reflexivity.
  - vm_compute. reflexivity.
  - simpl. lia.
Qed.

Lemma stored_text_nonempty_witness :
  serve uuid_of_hex sample_requests sample_table !! 7%N =
    Some (Row.mk "A2" "B" 100 300) ∧
  Row.title (Row.mk "A2" "B" 100 300) ≠ "" ∧
  Row.content (Row.mk "A2" "B" 100 300) ≠ "".
Proof.
  assert (Hrow : serve uuid_of_hex sample_requests sample_table !! 7%N =
                 Some (Row.mk "A2" "B" 100 300)) by (vm_compute; reflexivity).
  split; [exact Hrow |].
  apply (stored_text_nonempty uuid_of_hex sample_requests sample_table 7%N
           (Row.mk "A2" "B" 100 300)).
  - exact sample_table_text_nonempty.
  - exact Hrow.
Defined.

(** ** Delete *)

Lemma delete_note_200_absent env tbl note_id :
  status (response (run_handler (delete_note note_id) env tbl)) = 200%nat →
  store (run_handler (delete_note note_id) env tbl) !! note_id = None.
Proof. db_unfold. db_cases; intros Hst; try discriminate Hst. reflexivity. Qed.

(** C6, as the code has it.  After a delete of an id that answered 200, and
    whatever requests are served next that do not draw that id again for a
    new note, a get, a delete and an update that provides a title or a
    content answer 404 for that id, when the lookup does not fail. *)
Theorem deleted_note_not_found
    (parse_uuid : string → option UUID) env tbl note_id reqs env' payload :
  status (response (run_handler (delete_note note_id) env tbl)) = 200%nat →
  Forall (λ re : Request * Env, gen_random_uuid re.2 ≠ note_id) reqs →
  (∀ i, fault env' i CGet = None) →
  is_Some (NoteUpdate.title payload) ∨ is_Some (NoteUpdate.content payload) →
  let tbl' :=
    serve parse_uuid reqs (store (run_handler (delete_note note_id) env tbl)) in
  let not_found := mkResponse 404 (JDetail "Note not found") in
  response (run_handler (get_note note_id) env' tbl') = not_found ∧
  response (run_handler (update_note payload note_id) env' tbl') = not_found ∧
  response (run_handler (delete_note note_id) env' tbl') = not_found.
Proof.
  intros Hdel Hgen Hget Hp. cbv zeta.
  assert (Habsent :
    serve parse_uuid reqs (store (run_handler (delete_note note_id) env tbl))
      !! note_id = None)
    by auto using serve_keeps_absent, delete_note_200_absent.
  apply provided_not_nothing in Hp.
  set (tbl' := serve parse_uuid reqs _) in *. clearbody tbl'.
  rewrite run_get_note_missing, run_update_note_missing,
    run_delete_note_missing by assumption.
  done.
Qed.

Lemma deleted_note_not_found_witness :
  let tbl' :=
    serve uuid_of_hex sample_requests
      (store (run_handler (delete_note 7%N) sample_env sample_table)) in
  let not_found := mkResponse 404 (JDetail "Note not found") in
  response (run_handler (get_note 7%N) later_env tbl') = not_found ∧
  response (run_handler (update_note (NoteUpdate.mk (Some "C") None) 7%N)
              later_env tbl') = not_found ∧
  response (run_handler (delete_note 7%N) later_env tbl') = not_found.
Proof.
  apply (deleted_note_not_found uuid_of_hex sample_env sample_table 7%N
           sample_requests later_env (NoteUpdate.mk (Some "C") None)).
  - reflexivity.
  - repeat constructor; simpl; lia.
  - reflexivity.
  - left. simpl. eexists. reflexivity.
Defined.

(** C6, as stated, fails: after a delete that answered 200, an update of
    the same id that provides neither field answers 400, not 404. *)
Lemma update_after_delete_400 :
  let deleted := run_handler (delete_note 7%N) sample_env sample_table in
  let updated :=
    run_handler (update_note (NoteUpdate.mk None None) 7%N) later_env
      (store deleted) in
  status (response deleted) = 200%nat ∧
  response updated = mkResponse 400 (JDetail "Nothing to update") ∧
  status (response updated) ≠ 404%nat.
Proof. split_and!; [reflexivity | reflexivity | vm_compute; discriminate]. Qed.

(** ** Storage errors *)

Lemma storage_error_create env tbl payload c diag :
  let failed := run_handler (create_note payload) env tbl in
  EvFailed c diag ∈ trace failed →
  response failed = mkResponse 500 (JDetail ("Database error: " +:+ diag)) ∧
  (∃ before, trace failed = before ++ [EvFailed c diag; EvRollback]) ∧
  (store failed = tbl ∨ c = CRefresh).
Proof. storage_error_cases. Qed.

Lemma storage_error_update env tbl payload note_id c diag :
  let failed := run_handler (update_note payload note_id) env tbl in
  EvFailed c diag ∈ trace failed →
  response failed = mkResponse 500 (JDetail ("Database error: " +:+ diag)) ∧
  (∃ before, trace failed = before ++ [EvFailed c diag; EvRollback]) ∧
  (store failed = tbl ∨ c = CRefresh).
Proof. destruct payload as [[t|] [c'|]]; storage_error_cases. Qed.

Lemma storage_error_delete env tbl note_id c diag :
  let failed := run_handler (delete_note note_id) env tbl in
  EvFailed c diag ∈ trace failed →
  response failed = mkResponse 500 (JDetail ("Database error: " +:+ diag)) ∧
  (∃ before, trace failed = before ++ [EvFailed c diag; EvRollback]) ∧
  store failed = tbl.
Proof. storage_error_cases. Qed.

(** C9, as the code has it.  When a call of the session fails during a
    create, an update or a delete, the handler rolls the session back and
    then answers 500 with the detail [Database error: ] followed by the
    diagnostic of the failure.  The table is the one before the request,
    unless the call that failed is the refresh that follows the commit of a
    create or an update. *)
Theorem storage_error_rolled_back m env tbl c diag :
  EvFailed c diag ∈ trace (run_handler (mutation_handler m) env tbl) →
  let failed := run_handler (mutation_handler m) env tbl in
  response failed = mkResponse 500 (JDetail ("Database error: " +:+ diag)) ∧
  (∃ before, trace failed = before ++ [EvFailed c diag; EvRollback]) ∧
  (store failed = tbl ∨ c = CRefresh ∧ ∀ note_id, m ≠ Delete note_id).
Proof.
  destruct m as [payload|payload note_id|note_id]; simpl; intros Hin.
  - destruct (storage_error_create env tbl payload c diag Hin) as (? & ? & Hst).
    split_and!; [done | done |]. destruct Hst; [by left | by right].
  - destruct (storage_error_update env tbl payload note_id c diag Hin)
      as (? & ? & Hst).
    split_and!; [done | done |]. destruct Hst; [by left | by right].
  - destruct (storage_error_delete env tbl note_id c diag Hin) as (? & ? & Hst).
    split_and!; [done | done | by left].
Qed.

Lemma storage_error_rolled_back_witness :
  let failed :=
    run_handler (mutation_handler (Create (NoteCreate.mk "T" "C")))
      execute_fails sample_table in
  response failed =
    mkResponse 500
      (JDetail ("Database error: " +:+
                "server closed the connection unexpectedly")) ∧
  (∃ before,
     trace failed =
       before ++ [EvFailed CExecute "server closed the connection unexpectedly";
                  EvRollback]) ∧
  (store failed = sample_table ∨
   CExecute = CRefresh ∧ ∀ note_id, Create (NoteCreate.mk "T" "C") ≠ Delete note_id).
Proof.
  apply (storage_error_rolled_back (Create (NoteCreate.mk "T" "C"))
           execute_fails sample_table CExecute
           "server closed the connection unexpectedly").
  apply list_elem_of_In. vm_compute. tauto.
Defined.

(** C9, as stated, fails: when the refresh after the commit of a create
    fails, the handler answers 500 and the new note stays in the table. *)
Lemma refresh_failure_keeps_commit :
  let failed :=
    run_handler (create_note (NoteCreate.mk "T" "C")) refresh_fails
      sample_table in
  EvFailed CRefresh "server closed the connection unexpectedly" ∈ trace failed ∧
  status (response failed) = 500%nat ∧
  store failed !! 9%N = Some (Row.mk "T" "C" 200 200) ∧
  sample_table !! 9%N = None ∧
  store failed ≠ sample_table.
Proof.
  cbv zeta.
  assert (Hrow : store (run_handler (create_note (NoteCreate.mk "T" "C"))
                          refresh_fails sample_table) !! 9%N =
                 Some (Row.mk "T" "C" 200 200)) by (vm_compute; reflexivity).
  split_and!.
  - apply list_elem_of_In. vm_compute. tauto.
  - reflexivity.
  - exact Hrow.
  - vm_compute. reflexivity.
  - intros Heq. rewrite Heq in Hrow. vm_compute in Hrow. discriminate Hrow.
Qed.

(** * Further properties of the handlers *)

(** ** Reading *)

Lemma run_list_notes env tbl :
  (∀ i, fault env i CQuery = None) →
  run_handler list_notes env tbl =
    mkOutcome
      (mkResponse 200
         (JNotes (note_of_row <$> merge_sort updated_desc (map_to_list tbl))))
      tbl [EvOk CQuery].
Proof.
  intros Hf. db_unfold. db_auto. by rewrite <- list_fmap_compose.
Qed.

(** X1. When the lookup does not fail, [get_note] answers 200 with the
    stored row of the id, under that id, or 404 with the detail
    [Note not found] when no row has the id; it calls the session once and
    leaves the table as it was. *)
Theorem get_note_reads_row env tbl note_id :
  (∀ i, fault env i CGet = None) →
  run_handler (get_note note_id) env tbl =
    mkOutcome
      match tbl !! note_id with
      | Some r =>
          mkResponse 200
            (JNote (Note.mk note_id (Row.title r) (Row.content r)
                      (Row.created_at r) (Row.updated_at r)))
      | None => mkResponse 404 (JDetail "Note not found")
      end
      tbl [EvOk CGet].
Proof.
  intros Hf. destruct (tbl !! note_id) as [r|] eqn:Hr.
  - by rewrite (run_get_note_found env tbl note_id r).
  - by rewrite run_get_note_missing.
Qed.

Lemma get_note_reads_row_witness :
  run_handler (get_note 7%N) sample_env sample_table =
    mkOutcome (mkResponse 200 (JNote (Note.mk 7%N "A" "B" 100 100)))
      sample_table [EvOk CGet].
Proof.
  apply (get_note_reads_row sample_env sample_table 7%N). reflexivity.
Defined.

(** X2. A list or a get never changes the table and never rolls back: it
    calls the session once, and when that call fails the answer is 500
    with the detail [Database error: ] followed by the diagnostic. *)
Theorem reads_leave_table env tbl q :
  let o := run_handler (query_handler q) env tbl in
  store o = tbl ∧
  ((∃ c, trace o = [EvOk c]) ∨
   (∃ c diag,
      trace o = [EvFailed c diag] ∧
      response o = mkResponse 500 (JDetail ("Database error: " +:+ diag)))).
Proof.
  cbv zeta. destruct q as [|note_id]; simpl; db_unfold; db_cases;
    (split; [reflexivity | eauto]).
Qed.

(** X3. An update that provides a field, or a delete, of an id that no row
    has answers 404 with the detail [Note not found] when the lookup does
    not fail: the lookup is the only call of the session, nothing is
    committed or rolled back, the table is the one before. *)
Theorem missing_note_not_found env tbl payload note_id :
  tbl !! note_id = None →
  (∀ i, fault env i CGet = None) →
  is_Some (NoteUpdate.title payload) ∨ is_Some (NoteUpdate.content payload) →
  let not_found :=
    mkOutcome (mkResponse 404 (JDetail "Note not found")) tbl [EvOk CGet] in
  run_handler (update_note payload note_id) env tbl = not_found ∧
  run_handler (delete_note note_id) env tbl = not_found.
Proof.
  intros Hk Hf Hp. cbv zeta. apply provided_not_nothing in Hp.
  by rewrite run_update_note_missing, run_delete_note_missing.
Qed.

Lemma missing_note_not_found_witness :
  let not_found :=
    mkOutcome (mkResponse 404 (JDetail "Note not found")) sample_table
      [EvOk CGet] in
  run_handler (update_note (NoteUpdate.mk None (Some "C")) 8%N)
    sample_env sample_table = not_found ∧
  run_handler (delete_note 8%N) sample_env sample_table = not_found.
Proof.
  apply (missing_note_not_found sample_env sample_table
           (NoteUpdate.mk None (Some "C")) 8%N).
  - vm_compute. reflexivity.
  - reflexivity.
  - right. simpl. eexists. reflexivity.
Defined.

(** ** Writing *)

(** X4. A delete of a stored note, served without a storage failure,
    answers 200 with the id as text, and the table it leaves is the one
    before without that row. *)
Theorem delete_note_removes_row env tbl note_id r :
  tbl !! note_id = Some r →
  (∀ i c, fault env i c = None) →
  let deleted := run_handler (delete_note note_id) env tbl in
  response deleted = mkResponse 200 (JDeleted (uuid_str note_id)) ∧
  store deleted !! note_id = None ∧
  (∀ k, k ≠ note_id → store deleted !! k = tbl !! k) ∧
  size (store deleted) = pred (size tbl).
Proof.
  intros Hr Hf. cbv zeta. rewrite (run_delete_note env tbl note_id r) by done.
  simpl. split_and!.
  - done.
  - apply lookup_delete_eq.
  - intros k Hk. by apply lookup_delete_ne.
  - by erewrite map_size_delete_Some.
Qed.

Lemma delete_note_removes_row_witness :
  let deleted := run_handler (delete_note 7%N) sample_env sample_table in
  response deleted =
    mkResponse 200 (JDeleted "00000000-0000-0000-0000-000000000007") ∧
  store deleted !! 7%N = None ∧
  (∀ k, k ≠ 7%N → store deleted !! k = sample_table !! k) ∧
  size (store deleted) = pred (size sample_table).
Proof.
  apply (delete_note_removes_row sample_env sample_table 7%N sample_row).
  - vm_compute. reflexivity.
  - intros i c. reflexivity.
Defined.

(** X5. A create never changes a note that is stored, whatever fails: every
    row of the table before is in the table after, under the same id. *)
Theorem create_note_keeps_rows env tbl payload k r :
  tbl !! k = Some r →
  store (run_handler (create_note payload) env tbl) !! k = Some r.
Proof.
  intros Hr.
  destruct (store_create_note env tbl payload) as [->|[Hfresh ->]]; [done |].
  rewrite lookup_insert_ne; [done | congruence].
Qed.

Lemma create_note_keeps_rows_witness :
  store (run_handler (create_note (NoteCreate.mk "T" "C")) sample_env
           sample_table) !! 7%N = Some sample_row.
Proof.
  apply (create_note_keeps_rows sample_env sample_table
           (NoteCreate.mk "T" "C") 7%N sample_row).
  vm_compute. reflexivity.
Defined.

(** X6. An update or a delete of an id never changes the row of another
    id, nor adds one, whatever fails. *)
Theorem other_rows_untouched env tbl payload note_id k :
  k ≠ note_id →
  store (run_handler (update_note payload note_id) env tbl) !! k = tbl !! k ∧
  store (run_handler (delete_note note_id) env tbl) !! k = tbl !! k.
Proof.
  intros Hk. split.
  - destruct (store_update_note env tbl payload note_id)
      as [->|(r & Hr & ->)]; [done |].
    by rewrite lookup_insert_ne.
  - destruct (store_delete_note env tbl note_id) as [->| ->]; [done |].
    by rewrite lookup_delete_ne.
Qed.

Lemma other_rows_untouched_witness :
  store (run_handler (update_note (NoteUpdate.mk (Some "C") None) 9%N)
           sample_env sample_table) !! 7%N = sample_table !! 7%N ∧
  store (run_handler (delete_note 9%N) sample_env sample_table) !! 7%N =
    sample_table !! 7%N.
Proof.
  apply (other_rows_untouched sample_env sample_table
           (NoteUpdate.mk (Some "C") None) 9%N 7%N).
  discriminate.
Defined.

(** ** Timestamps of a note over time *)

Lemma change_keeps_created_at env tbl tbl' k r r' :
  committed_change env tbl tbl' →
  tbl !! k = Some r → tbl' !! k = Some r' →
  Row.created_at r' = Row.created_at r.
Proof.
  intros [|t c _ _ Hfresh|k' r0 t c Hr0 _ _|k'] Hr.
  - congruence.
  - rewrite lookup_insert_ne; congruence.
  - rewrite lookup_insert. case_decide; [| congruence].
    subst k'. intros [= <-]. simpl. congruence.
  - rewrite lookup_delete. case_decide; congruence.
Qed.

(** X7. No request changes the [created_at] of a stored note: over any
    sequence of requests in which the database does not draw the note's id
    again, a note that is still stored has the [created_at] it had. *)
Theorem created_at_never_changes
    (parse_uuid : string → option UUID) reqs tbl k r r' :
  Forall (λ re : Request * Env, gen_random_uuid re.2 ≠ k) reqs →
  tbl !! k = Some r →
  serve parse_uuid reqs tbl !! k = Some r' →
  Row.created_at r' = Row.created_at r.
Proof.
  revert tbl r. induction reqs as [|[req env] reqs IH]; intros tbl r Hgen Hr.
  - simpl. congruence.
  - inversion Hgen as [|? ? Hhd Htl]; subst. simpl in *.
    destruct (store (dispatch parse_uuid req env tbl) !! k) as [r1|] eqn:Hr1.
    + intros Hr'. rewrite (IH _ r1 Htl Hr1 Hr').
      eapply change_keeps_created_at; [apply dispatch_change | done | done].
    + rewrite (serve_keeps_absent parse_uuid reqs k _ Htl Hr1). discriminate.
Qed.

Lemma created_at_never_changes_witness :
  serve uuid_of_hex sample_requests sample_table !! 7%N =
    Some (Row.mk "A2" "B" 100 300) ∧
  Row.created_at (Row.mk "A2" "B" 100 300) = Row.created_at sample_row.
Proof.
  assert (Hrow : serve uuid_of_hex sample_requests sample_table !! 7%N =
                 Some (Row.mk "A2" "B" 100 300)) by (vm_compute; reflexivity).
  split; [exact Hrow |].
  apply (created_at_never_changes uuid_of_hex sample_requests sample_table
           7%N sample_row (Row.mk "A2" "B" 100 300)).
  - repeat constructor; simpl; lia.
  - vm_compute. reflexivity.
  - exact Hrow.
Defined.

Lemma serve_updated_at_bound (parse_uuid : string → option UUID) reqs k r' :
  ∀ tbl t,
    timestamps_ordered t tbl →
    clock_advances t reqs →
    serve parse_uuid reqs tbl !! k = Some r' →
    (∃ r, tbl !! k = Some r ∧ Row.updated_at r ≤ Row.updated_at r') ∨
    t ≤ Row.updated_at r'.
Proof.
  induction reqs as [|[req env] reqs IH]; intros tbl t Hinv Hclock Hr'.
  - left. exists r'. split; [done | lia].
  - destruct Hclock as [Hle Hclock]. simpl in Hr'.
    pose proof (dispatch_change parse_uuid req env tbl) as Hch.
    pose proof (change_keeps_timestamps_ordered _ _ _ _ Hch Hinv Hle) as Hinv1.
    destruct (IH _ _ Hinv1 Hclock Hr') as [(r1 & Hr1 & Hle1)|Hle1]; [| right; lia].
    destruct Hch as [|title c _ _ Hfresh|k' r0 title c Hr0 _ _|k'].
    + left. eauto.
    + rewrite lookup_insert in Hr1. case_decide.
      * injection Hr1 as <-. simpl in Hle1. right. lia.
      * left. eauto.
    + rewrite lookup_insert in Hr1. case_decide.
      * injection Hr1 as <-. simpl in Hle1. right. lia.
      * left. eauto.
    + rewrite lookup_delete in Hr1. case_decide; [done |]. left. eauto.
Qed.

(** X8. With a clock whose readings never go back, the [updated_at] stored
    under an id never goes back: over any sequence of requests, from a
    table whose notes are ordered and not updated later than the clock
    reads, what is stored under an id at the end was updated no earlier
    than what was stored under it at the start. *)
Theorem updated_at_never_goes_back
    (parse_uuid : string → option UUID) reqs tbl t k r r' :
  timestamps_ordered t tbl →
  clock_advances t reqs →
  tbl !! k = Some r →
  serve parse_uuid reqs tbl !! k = Some r' →
  Row.updated_at r ≤ Row.updated_at r'.
Proof.
  intros Hinv Hclock Hr Hr'.
  destruct (serve_updated_at_bound parse_uuid reqs k r' tbl t Hinv Hclock Hr')
    as [(r0 & Hr0 & Hle)|Hle].
  - congruence.
  - specialize (Hinv k r Hr). lia.
Qed.

Lemma updated_at_never_goes_back_witness :
  serve uuid_of_hex sample_requests sample_table !! 7%N =
    Some (Row.mk "A2" "B" 100 300) ∧
  Row.updated_at sample_row ≤ Row.updated_at (Row.mk "A2" "B" 100 300).
Proof.
  assert (Hrow : serve uuid_of_hex sample_requests sample_table !! 7%N =
                 Some (Row.mk "A2" "B" 100 300)) by (vm_compute; reflexivity).
  split; [exact Hrow |].
  apply (updated_at_never_goes_back uuid_of_hex sample_requests sample_table
           100 7%N sample_row (Row.mk "A2" "B" 100 300)).
  - exact sample_table_timestamps_ordered.
  - simpl. lia.
  - vm_compute. reflexivity.
  - exact Hrow.
Defined.

(** ** One request after another *)

Lemma length_rows (l : list (N * Row.t)) :
  length (note_of_row <$> merge_sort updated_desc l) = length l.
Proof. by rewrite (rows_all l), !length_fmap. Qed.



(** X10. After an update that answered 200, a get of the same id that does
    not fail answers 200 with the note the update returned. *)
Theorem update_note_then_get env tbl payload note_id env' :
  status (response (run_handler (update_note payload note_id) env tbl)) =
    200%nat →
  (∀ i, fault env' i CGet = None) →
  let updated := run_handler (update_note payload note_id) env tbl in
  response (run_handler (get_note note_id) env' (store updated)) =
    response updated.
Proof.
  intros Hst Hf. cbv zeta. revert Hst.
  destruct payload as [[t|] [c|]]; db_unfold; db_cases;
    intros Hst; try discriminate Hst; reflexivity.
Qed.

Lemma update_note_then_get_witness :
  let updated :=
    run_handler (update_note (NoteUpdate.mk (Some "C") None) 7%N) sample_env
      sample_table in
  response (run_handler (get_note 7%N) later_env (store updated)) =
    response updated.
Proof.
  apply (update_note_then_get sample_env sample_table
           (NoteUpdate.mk (Some "C") None) 7%N later_env); reflexivity.
Defined.

(** ** What an answer tells *)

Lemma status_of_handlers env tbl :
  let known (h : DB Body) :=
    status (response (run_handler h env tbl)) ∈ [200; 400; 404; 500]%nat in
  known list_notes ∧
  (∀ payload, known (create_note payload)) ∧
  (∀ note_id, known (get_note note_id)) ∧
  (∀ payload note_id, known (update_note payload note_id)) ∧
  (∀ note_id, known (delete_note note_id)).
Proof.
  cbv zeta. split_and!.
  - db_unfold; db_cases; (simpl; rewrite !elem_of_cons; auto 10).
  - intros payload. db_unfold; db_cases; (simpl; rewrite !elem_of_cons; auto 10).
  - intros note_id. db_unfold; db_cases; (simpl; rewrite !elem_of_cons; auto 10).
  - intros [[t|] [c|]] note_id; db_unfold; db_cases; (simpl; rewrite !elem_of_cons; auto 10).
  - intros note_id. db_unfold; db_cases; (simpl; rewrite !elem_of_cons; auto 10).
Qed.

(** X11. Whatever the request and whatever fails, the status of the answer
    is 200, 400, 404, 422 or 500. *)
Theorem status_is_known (parse_uuid : string → option UUID) req env tbl :
  status (response (dispatch parse_uuid req env tbl)) ∈
    [200; 400; 404; 422; 500]%nat.
Proof.
  destruct (status_of_handlers env tbl) as (Hl & Hc & Hg & Hu & Hd).
  assert (Hmore : ∀ n : nat,
            n ∈ [200; 400; 404; 500]%nat → n ∈ [200; 400; 404; 422; 500]%nat).
  { intros n. rewrite !elem_of_cons. intuition. }
  assert (H422 : 422%nat ∈ [200; 400; 404; 422; 500]%nat)
    by (rewrite !elem_of_cons; auto 10).
  unfold dispatch, path_note_id. destruct req as [|b|raw|raw b|raw].
  - auto.
  - destruct (NoteCreate_validate b); auto.
  - destruct (parse_uuid raw); auto.
  - destruct (parse_uuid raw), (NoteUpdate_validate b); auto.
  - destruct (parse_uuid raw); auto.
Qed.

Lemma quiet_handlers env tbl :
  let quiet (h : DB Body) :=
    let o := run_handler h env tbl in
    status (response o) ≠ 200%nat → status (response o) ≠ 500%nat →
    store o = tbl ∧ (trace o = [] ∨ trace o = [EvOk CGet]) in
  quiet list_notes ∧
  (∀ payload, quiet (create_note payload)) ∧
  (∀ note_id, quiet (get_note note_id)) ∧
  (∀ payload note_id, quiet (update_note payload note_id)) ∧
  (∀ note_id, quiet (delete_note note_id)).
Proof.
  cbv zeta. split_and!.
  - db_unfold; db_cases; intros H200 H500; done.
  - intros payload. db_unfold; db_cases; intros H200 H500; done.
  - intros note_id. db_unfold; db_cases; intros H200 H500; auto; done.
  - intros [[t|] [c|]] note_id; db_unfold; db_cases; intros H200 H500;
      auto; done.
  - intros note_id. db_unfold; db_cases; intros H200 H500; auto; done.
Qed.

(** X12. A request answered with a status other than 200 and 500 (400,
    404 or 422) has not changed the table, and its session was not called
    at all or only for the lookup of the note: nothing was flushed,
    committed or rolled back. *)
Theorem client_error_leaves_table
    (parse_uuid : string → option UUID) req env tbl :
  let o := dispatch parse_uuid req env tbl in
  status (response o) ≠ 200%nat →
  status (response o) ≠ 500%nat →
  store o = tbl ∧ (trace o = [] ∨ trace o = [EvOk CGet]).
Proof.
  destruct (quiet_handlers env tbl) as (Hl & Hc & Hg & Hu & Hd).
  cbv zeta. unfold dispatch, path_note_id.
  destruct req as [|b|raw|raw b|raw].
  - apply Hl.
  - destruct (NoteCreate_validate b); auto.
  - destruct (parse_uuid raw); auto.
  - destruct (parse_uuid raw), (NoteUpdate_validate b); auto.
  - destruct (parse_uuid raw); auto.
Qed.

Lemma client_error_leaves_table_witness :
  let o :=
    dispatch uuid_of_hex
      (DELETE_note "00000000-0000-0000-0000-000000000008")
      sample_env sample_table in
  store o = sample_table ∧ (trace o = [] ∨ trace o = [EvOk CGet]).
Proof.
  apply (client_error_leaves_table uuid_of_hex
           (DELETE_note "00000000-0000-0000-0000-000000000008")
           sample_env sample_table); vm_compute; discriminate.
Defined.

(** X13. A create answered with 200 has stored the note it returns, under
    the key the database drew, which no row had; the title and content are
    the payload's and both timestamps are the server's [NOW()]. *)
Theorem create_note_200_stored env tbl payload :
  status (response (run_handler (create_note payload) env tbl)) = 200%nat →
  let created := run_handler (create_note payload) env tbl in
  let n :=
    Note.mk (gen_random_uuid env) (NoteCreate.title payload)
      (NoteCreate.content payload) (now env) (now env) in
  response created = mkResponse 200 (JNote n) ∧
  tbl !! gen_random_uuid env = None ∧
  store created = <[gen_random_uuid env := row_of_note n]> tbl.
Proof.
  cbv zeta. db_unfold. db_cases; intros Hst; try discriminate Hst. done.
Qed.

Lemma create_note_200_stored_witness :
  let created :=
    run_handler (create_note (NoteCreate.mk "T" "C")) sample_env sample_table in
  let n := Note.mk 9%N "T" "C" 200 200 in
  response created = mkResponse 200 (JNote n) ∧
  sample_table !! 9%N = None ∧
  store created = <[9%N := row_of_note n]> sample_table.
Proof.
  apply (create_note_200_stored sample_env sample_table
           (NoteCreate.mk "T" "C")).
  reflexivity.
Defined.

(** X14. An update answered with 200 found a row under the id and has
    stored the note it returns in its place: the id and [created_at] are
    the row's, [updated_at] is the server's [NOW()], and no other row
    changed. *)
Theorem update_note_200_stored env tbl payload note_id :
  status (response (run_handler (update_note payload note_id) env tbl)) =
    200%nat →
  let updated := run_handler (update_note payload note_id) env tbl in
  ∃ r n,
    tbl !! note_id = Some r ∧
    response updated = mkResponse 200 (JNote n) ∧
    Note.id n = note_id ∧
    Note.created_at n = Row.created_at r ∧
    Note.updated_at n = now env ∧
    store updated = <[note_id := row_of_note n]> tbl.
Proof.
  cbv zeta.
  destruct payload as [[t|] [c|]]; db_unfold; db_cases;
    intros Hst; try discriminate Hst; eexists _, _; split_and!; done.
Qed.

Lemma update_note_200_stored_witness :
  let updated :=
    run_handler (update_note (NoteUpdate.mk (Some "C") None) 7%N) sample_env
      sample_table in
  ∃ r n,
    sample_table !! 7%N = Some r ∧
    response updated = mkResponse 200 (JNote n) ∧
    Note.id n = 7%N ∧
    Note.created_at n = Row.created_at r ∧
    Note.updated_at n = now sample_env ∧
    store updated = <[7%N := row_of_note n]> sample_table.
Proof.
  apply (update_note_200_stored sample_env sample_table
           (NoteUpdate.mk (Some "C") None) 7%N).
  reflexivity.
Defined.

(** X15. A delete answered with 200 found a row under the id and has
    removed it: the table after is the table before without that row. *)
Theorem delete_note_200_removed env tbl note_id :
  status (response (run_handler (delete_note note_id) env tbl)) = 200%nat →
  let deleted := run_handler (delete_note note_id) env tbl in
  is_Some (tbl !! note_id) ∧
  response deleted = mkResponse 200 (JDeleted (uuid_str note_id)) ∧
  store deleted = delete note_id tbl.
Proof.
  cbv zeta. db_unfold. db_cases; intros Hst; try discriminate Hst.
  split_and!; [by eexists | done | done].
Qed.

Lemma delete_note_200_removed_witness :
  let deleted := run_handler (delete_note 7%N) sample_env sample_table in
  is_Some (sample_table !! 7%N) ∧
  response deleted =
    mkResponse 200 (JDeleted (uuid_str 7%N)) ∧
  store deleted = delete 7%N sample_table.
Proof.
  apply (delete_note_200_removed sample_env sample_table 7%N). reflexivity.
Defined.

(** ** The table over time *)

Lemma change_dom env tbl tbl' :
  committed_change env tbl tbl' →
  dom tbl' ⊆ dom tbl ∪ {[gen_random_uuid env]}.
Proof.
  intros Hch x. rewrite elem_of_union, elem_of_singleton.
  destruct Hch as [|t c _ _ _|k r t c Hr _ _|k].
  - by left.
  - rewrite dom_insert_L, elem_of_union, elem_of_singleton. tauto.
  - rewrite dom_insert_L, elem_of_union, elem_of_singleton.
    intros [->|Hx]; left; [by apply elem_of_dom_2 in Hr | done].
  - rewrite dom_delete_L, elem_of_difference. tauto.
Qed.

Lemma drawn_cons req env reqs x :
  x ∈ drawn ((req, env) :: reqs) ↔ x = gen_random_uuid env ∨ x ∈ drawn reqs.
Proof.
  unfold drawn. simpl. by rewrite elem_of_union, elem_of_singleton.
Qed.

(** X16. The ids of the stored notes come from the database, never from a
    request: after any sequence of requests, every id in the table was in
    it at the start or was drawn by [gen_random_uuid()] for one of the
    requests. *)
Theorem ids_are_drawn (parse_uuid : string → option UUID) reqs tbl :
  dom (serve parse_uuid reqs tbl) ⊆ dom tbl ∪ drawn reqs.
Proof.
  revert tbl. induction reqs as [|[req env] reqs IH]; intros tbl x.
  - simpl. rewrite elem_of_union. tauto.
  - simpl. intros Hx. apply IH in Hx.
    rewrite elem_of_union, drawn_cons. rewrite elem_of_union in Hx.
    destruct Hx as [Hx|Hx]; [| tauto].
    apply (change_dom _ _ _ (dispatch_change parse_uuid req env tbl)) in Hx.
    rewrite elem_of_union, elem_of_singleton in Hx. tauto.
Qed.

Lemma change_size env tbl tbl' :
  committed_change env tbl tbl' →
  (size tbl ≤ S (size tbl') ∧ size tbl' ≤ S (size tbl))%nat.
Proof.
  intros [|t c _ _ Hfresh|k r t c Hr _ _|k].
  - lia.
  - rewrite map_size_insert_None by done. lia.
  - rewrite map_size_insert_Some by (by eexists). lia.
  - rewrite map_size_delete. destruct (tbl !! k); unfold id; lia.
Qed.

(** X17. One request adds at most one note and removes at most one,
    whatever fails. *)
Theorem one_note_at_a_time (parse_uuid : string → option UUID) req env tbl :
  let after := store (dispatch parse_uuid req env tbl) in
  (size tbl ≤ S (size after) ∧ size after ≤ S (size tbl))%nat.
Proof. apply (change_size env), dispatch_change. Qed.

(** ** The listing *)

(** X19. When the query does not fail, the listing has one note for each
    row of the table: no id occurs twice, there are as many notes as rows,
    and a note is listed exactly when its row is stored under its id. *)
Theorem list_notes_one_per_row env tbl :
  (∀ i, fault env i CQuery = None) →
  ∃ l,
    response (run_handler list_notes env tbl) = mkResponse 200 (JNotes l) ∧
    NoDup (Note.id <$> l) ∧
    length l = size tbl ∧
    ∀ n, n ∈ l ↔ tbl !! Note.id n = Some (row_of_note n).
Proof.
  intros Hf. eexists. rewrite run_list_notes by done. simpl.
  split_and!; [done | | |].
  - rewrite rows_all, <- list_fmap_compose.
    apply (NoDup_fst_map_to_list tbl).
  - by rewrite length_rows, length_map_to_list.
  - intros n. rewrite rows_all. apply elem_of_stored_notes.
Qed.

Lemma list_notes_one_per_row_witness :
  ∃ l,
    response (run_handler list_notes sample_env sample_table) =
      mkResponse 200 (JNotes l) ∧
    NoDup (Note.id <$> l) ∧
    length l = size sample_table ∧
    ∀ n, n ∈ l ↔ sample_table !! Note.id n = Some (row_of_note n).
Proof.
  apply (list_notes_one_per_row sample_env sample_table). reflexivity.
Defined.

(** ** Start-up *)

(** X20. [init_db] can be run at every start: when nothing fails it leaves
    the extension and the table in place and keeps the rows of a table
    that was there, and running it again changes nothing more. *)
Theorem init_db_idempotent fault fault' d :
  (∀ s, fault s = None) →
  (∀ s, fault' s = None) →
  let d' := (init_db fault d).2 in
  (init_db fault d).1 = None ∧
  pgcrypto d' = true ∧
  is_Some (notes d') ∧
  (∀ rows, notes d = Some rows → notes d' = Some rows) ∧
  init_db fault' d' = (None, d').
Proof.
  intros Hf Hf'. cbv zeta. unfold init_db. rewrite !Hf, !Hf'. simpl.
  split_and!; try done.
  - intros rows Hrows. by rewrite Hrows.
Qed.

Lemma init_db_idempotent_witness :
  let d' := (init_db no_init_fault sample_database).2 in
  (init_db no_init_fault sample_database).1 = None ∧
  pgcrypto d' = true ∧
  is_Some (notes d') ∧
  (∀ rows, notes sample_database = Some rows → notes d' = Some rows) ∧
  init_db no_init_fault d' = (None, d').
Proof.
  apply (init_db_idempotent no_init_fault no_init_fault sample_database);
    intros s; reflexivity.
Defined.

(** X21. [on_startup] either starts the application, and then the
    extension and the table exist, or stops it with a [RuntimeError] whose
    message is [Database initialization failed: ] followed by the
    diagnostic of the step that failed, and then the database is as it
    was: nothing of a failed initialization stays. *)
Theorem on_startup_all_or_nothing fault d :
  match on_startup fault d with
  | Started d' =>
      (∀ s, fault s = None) ∧ pgcrypto d' = true ∧ is_Some (notes d')
  | RuntimeError msg d' =>
      d' = d ∧
      ∃ s diag,
        fault s = Some diag ∧
        msg = "Database initialization failed: " +:+ diag
  end.
Proof.
  unfold on_startup, init_db.
  destruct (fault IBegin) eqn:Hb; [by eauto |].
  destruct (fault ICreateExtension) eqn:He; [by eauto |].
  destruct (fault ICreateTable) eqn:Ht; [by eauto |].
  destruct (fault ICommit) eqn:Hc; [by eauto |].
  split_and!; [by intros [] | done | by eexists].
Qed.
